(** * The wallet balance list and the currency-swap form

    A shallow embedding of [proplem3/revertCode.tsx] (the [WalletPage]
    component: priority lookup, filter, sort, format, row construction) and
    of the exchange-rate effect of [currency-swap/src/App.tsx].

    Conventions.
    - A JavaScript [number] is an IEEE 754 binary64 value: Rocq's primitive
      [float], with its [nan], signed zeros and infinities.
    - The priorities returned by [getPriority] are the integer literals
      100, 50, 30, 20 and -99; arithmetic on them is exact in binary64, so
      they are embedded as [Z], and so is the number the sort comparator
      returns.
    - A JavaScript object used as a dictionary ([prices], the props of a
      React element) is a [gmap string _]; a value that is a number or
      [undefined] (a dictionary entry, the result of [?.price]) is an
      [option number], [None] standing for [undefined].
    - [Array.prototype.sort] is stable (ECMAScript 2019 and later); it is
      embedded as a stable insertion sort, which for a consistent comparator
      yields the one result every stable sort yields.
    - What the host environment supplies ([toLocaleString], [toFixed],
      [Number] on strings, the style sheet) is a parameter. *)

From Stdlib Require Import ZArith List Floats Sorted Permutation.
From stdpp Require Import gmap strings list sorting.

Local Open Scope Z_scope.

(** ** JavaScript values *)

Module JS.

(** A JavaScript number. *)
Abbreviation number := float.

(** [obj[k]] on an object used as a dictionary of numbers. *)
Definition index (obj : gmap string number) (k : string) : option number :=
  obj !! k.

(** ToNumber, which the arithmetic operators apply to their operands:
    [undefined] becomes [NaN]. *)
Definition ToNumber (v : option number) : number :=
  match v with
  | Some n => n
  | None => nan
  end.

(** ToBoolean on a number: [+0], [-0] and [NaN] are falsy. *)
Definition truthy (n : number) : bool :=
  negb (n =? 0)%float && (n =? n)%float.

(** ToBoolean on a number or [undefined]. *)
Definition ToBoolean (v : option number) : bool :=
  match v with
  | Some n => truthy n
  | None => false
  end.

(** ToBoolean on a string: only the empty string is falsy. *)
Definition nonempty (s : string) : bool := negb (String.eqb s "").

Definition is_nan (n : number) : bool := negb (n =? n)%float.

Definition nonzero (n : number) : bool := negb (n =? 0)%float.

(** [a > b] on numbers is [b < a]; it is false when either is [NaN]. *)
Definition gt (a b : number) : bool := (b <? a)%float.

(** *** [Array.prototype.sort] with a comparator

    [comparefn x y > 0] asks for [y] before [x]; otherwise the two keep
    their order.  Elements are inserted from the right, so elements the
    comparator does not separate keep their original order. *)
Section Sort.
Context {A : Type} (comparefn : A -> A -> Z).

Fixpoint sort_insert (x : A) (sorted : list A) : list A :=
  match sorted with
  | [] => [x]
  | y :: ys =>
      if 0 <? comparefn x y then y :: sort_insert x ys
      else x :: y :: ys
  end.

Definition sort (l : list A) : list A := foldr sort_insert [] l.
End Sort.

(** Orderings by an integer key, higher first. *)
Section Keys.
Context {A : Type} (k : A -> Z).

(** [descending a b]: [a] may stand before [b]. *)
Definition descending (a b : A) : Prop := k b <= k a.

Definition has_key (p : Z) (a : A) : bool := k a =? p.
End Keys.

(** The values given as props in the modelled code. *)
Inductive value :=
| VNumber (n : number)
| VString (s : string).

(** A React element: its component, its [key] and its props (the [key]
    attribute of a JSX tag is not a prop). *)
Record element := Element {
  type : string;
  key : string;
  props : gmap string value;
}.

End JS.

(** ** [proplem3/revertCode.tsx]: the wallet page *)

Module Wallet.
Import JS.

Record WalletBalance := {
  currency : string;
  amount : number;
  blockchain : string;
}.

(** [interface FormattedWalletBalance extends WalletBalance]. *)
Record FormattedWalletBalance := {
  fcurrency : string;
  famount : number;
  fblockchain : string;
  formatted : string;
}.

Definition getPriority (blockchain : string) : Z :=
  if String.eqb blockchain "Osmosis" then 100
  else if String.eqb blockchain "Ethereum" then 50
  else if String.eqb blockchain "Arbitrum" then 30
  else if String.eqb blockchain "Zilliqa" then 20
  else if String.eqb blockchain "Neo" then 20
  else -99.

(** The value of the [default] case. *)
Definition sentinel : Z := -99.

(** The chains [getPriority] has a case for. *)
Definition known_chains : list string :=
  ["Osmosis"; "Ethereum"; "Arbitrum"; "Zilliqa"; "Neo"].

(** The priority of a record: that of its chain. *)
Definition priority (balance : WalletBalance) : Z :=
  getPriority (blockchain balance).

(** The callback of [balances.filter]. *)
Definition isValid (balance : WalletBalance) : bool :=
  let balancePriority := getPriority (blockchain balance) in
  (balancePriority >? -99) && gt (amount balance) 0%float.

(** The callback of [validBalances.sort]. *)
Definition comparePriority (lhs rhs : WalletBalance) : Z :=
  let leftPriority := getPriority (blockchain lhs) in
  let rightPriority := getPriority (blockchain rhs) in
  rightPriority - leftPriority.

Definition sortedBalances (balances : list WalletBalance)
  : list WalletBalance :=
  let validBalances := List.filter isValid balances in
  sort comparePriority validBalances.

Section Host.
(** What the host supplies: the locale-dependent rendering of a number and
    the style sheet's class name for a row. *)
Context (toLocaleString : number -> string) (classes_row : string).

(** The callback of [sortedBalances.map]: [{...balance, formatted}]. *)
Definition format (balance : WalletBalance) : FormattedWalletBalance :=
  {| fcurrency := currency balance;
     famount := amount balance;
     fblockchain := blockchain balance;
     formatted := toLocaleString (amount balance) |}.

Definition formattedBalances (sorted : list WalletBalance)
  : list FormattedWalletBalance :=
  map format sorted.

(** The callback of [formattedBalances.map]: one [<WalletRow ... />]. *)
Definition row (prices : gmap string number)
    (balance : FormattedWalletBalance) : element :=
  let usdValue :=
    (ToNumber (index prices (fcurrency balance)) * famount balance)%float in
  {| type := "WalletRow";
     key := fcurrency balance +:+ fblockchain balance;
     props :=
       <["className" := VString classes_row]>
       (<["amount" := VNumber (famount balance)]>
       (<["usdValue" := VNumber usdValue]>
       (<["formattedAmount" := VString (formatted balance)]> ∅))) |}.

(** The rows the component renders from [balances] and [prices]. *)
Definition rows (balances : list WalletBalance)
    (prices : gmap string number) : list element :=
  map (row prices) (formattedBalances (sortedBalances balances)).

End Host.

(** A prop that marks a value as unknown: absent, or anything but a
    number. *)
Definition explicit_unknown (v : option value) : bool :=
  match v with
  | Some (VNumber _) => false
  | _ => true
  end.

(** What a row shows once its price-dependent prop is left out. *)
Definition without_usdValue (r : element) : element :=
  {| type := type r; key := key r; props := delete "usdValue" (props r) |}.

End Wallet.

(** ** Counting the calls of the resolver

    The same filter and sort with every call of [getPriority] recorded: a
    computation takes the number of calls made so far and returns its
    result with the new number.

    [filterM] calls its callback once per element, as [Array.prototype.filter]
    does in every engine.  [sort_insertM] and [sortM] are the embedded
    insertion sort with its comparator calls recorded: which pairs
    [Array.prototype.sort] compares, and how many, is up to the engine, so
    the number they record is the engine's only where one comparison
    settles the order, on two elements.  [sortedBalancesE] below leaves the
    compared pairs to the engine. *)

Module Counted.
Import JS Wallet.

Definition M (A : Type) : Type := nat -> A * nat.

Definition ret {A} (a : A) : M A := fun n => (a, n).

Definition bind {A B} (m : M A) (f : A -> M B) : M B :=
  fun n => let (a, n') := m n in f a n'.

Definition tick : M unit := fun n => (tt, S n).

Notation "'call' x <~ m 'in' k" := (bind m (fun x => k))
  (at level 10, x name, m at level 200, k at level 200).

Definition getPriorityM (blockchain : string) : M Z :=
  call _ <~ tick in ret (getPriority blockchain).

Definition isValidM (balance : WalletBalance) : M bool :=
  call balancePriority <~ getPriorityM (blockchain balance) in
  ret ((balancePriority >? -99) && gt (amount balance) 0%float).

Definition comparePriorityM (lhs rhs : WalletBalance) : M Z :=
  call leftPriority <~ getPriorityM (blockchain lhs) in
  call rightPriority <~ getPriorityM (blockchain rhs) in
  ret (rightPriority - leftPriority).

Section Arrays.
Context {A : Type}.

Fixpoint filterM (f : A -> M bool) (l : list A) : M (list A) :=
  match l with
  | [] => ret []
  | x :: xs =>
      call keep <~ f x in
      call rest <~ filterM f xs in
      ret (if keep then x :: rest else rest)
  end.

Fixpoint sort_insertM (comparefn : A -> A -> M Z) (x : A) (sorted : list A)
  : M (list A) :=
  match sorted with
  | [] => ret [x]
  | y :: ys =>
      call c <~ comparefn x y in
      if 0 <? c then (call rest <~ sort_insertM comparefn x ys in ret (y :: rest))
      else ret (x :: y :: ys)
  end.

Fixpoint sortM (comparefn : A -> A -> M Z) (l : list A) : M (list A) :=
  match l with
  | [] => ret []
  | x :: xs =>
      call sorted <~ sortM comparefn xs in
      sort_insertM comparefn x sorted
  end.
End Arrays.

Definition sortedBalancesM (balances : list WalletBalance)
  : M (list WalletBalance) :=
  call validBalances <~ filterM isValidM balances in
  sortM comparePriorityM validBalances.

(** The number of resolver calls of one run of the filter+sort stage. *)
Definition resolver_calls (balances : list WalletBalance) : nat :=
  snd (sortedBalancesM balances 0%nat).

(** *** The stage on any engine

    [schedule l] stands for the pairs the engine's sort hands to the
    comparator when it sorts [l], in order; it is any function (an engine
    chooses the next pair by the answers it got, and these are fixed by
    [l]).  The comparator is called on each pair; the sorted array is the
    one every stable sort returns. *)
Fixpoint compareEachM {A : Type} (comparefn : A -> A -> M Z)
    (pairs : list (A * A)) : M unit :=
  match pairs with
  | [] => ret tt
  | (x, y) :: rest =>
      call _ <~ comparefn x y in
      compareEachM comparefn rest
  end.

Definition sortedBalancesE
    (schedule : list WalletBalance -> list (WalletBalance * WalletBalance))
    (balances : list WalletBalance) : M (list WalletBalance) :=
  call validBalances <~ filterM isValidM balances in
  call _ <~ compareEachM comparePriorityM (schedule validBalances) in
  ret (sort comparePriority validBalances).

End Counted.

(** ** Counting the passes of the format+project stage

    [l.map(f)] is one pass over [l]: it builds a new array and calls [f]
    once on each element of [l], in order.  A computation takes the tally
    so far (arrays built by [map], callbacks run) and returns its result
    with the new tally. *)

Module Passes.
Import JS Wallet.

Record tally := {
  arrays : nat;
  callbacks : nat;
}.

Definition P (A : Type) : Type := tally -> A * tally.

Definition ret {A} (a : A) : P A := fun t => (a, t).

Definition bind {A B} (m : P A) (f : A -> P B) : P B :=
  fun t => let (a, t') := m t in f a t'.

Notation "'pass' x <~ m 'in' k" := (bind m (fun x => k))
  (at level 10, x name, m at level 200, k at level 200).

Definition newArray : P unit :=
  fun t => (tt, {| arrays := S (arrays t); callbacks := callbacks t |}).

Definition callback : P unit :=
  fun t => (tt, {| arrays := arrays t; callbacks := S (callbacks t) |}).

Fixpoint eachP {A B : Type} (f : A -> B) (l : list A) : P (list B) :=
  match l with
  | [] => ret []
  | x :: xs =>
      pass _ <~ callback in
      pass rest <~ eachP f xs in
      ret (f x :: rest)
  end.

(** [l.map(f)]. *)
Definition mapP {A B : Type} (f : A -> B) (l : list A) : P (list B) :=
  pass _ <~ newArray in
  eachP f l.

Section Host.
Context (toLocaleString : number -> string) (classes_row : string).

Definition formattedBalancesP (sorted : list WalletBalance)
  : P (list FormattedWalletBalance) :=
  mapP (format toLocaleString) sorted.

Definition rowsP (balances : list WalletBalance)
    (prices : gmap string number) : P (list element) :=
  pass formattedBalances <~ formattedBalancesP (sortedBalances balances) in
  mapP (row classes_row prices) formattedBalances.
End Host.

Definition none : tally := {| arrays := 0; callbacks := 0 |}.

End Passes.

(** ** [currency-swap/src/App.tsx]: the exchange rate *)

Module Swap.
Import JS.

(** [interface Token]. *)
Record Token := {
  currency : string;
  date : string;
  price : number;
}.

(** [tokens.find((t) => t.currency === c)]. *)
Definition findToken (tokens : list Token) (c : string) : option Token :=
  List.find (fun t => String.eqb (currency t) c) tokens.

(** [tokens.find((t) => t.currency === c)?.price]. *)
Definition priceOf (tokens : list Token) (c : string) : option number :=
  price <$> findToken tokens c.

Section Host.
(** [Number.prototype.toFixed] and [Number] applied to a string. *)
Context (toFixed : number -> nat -> string) (Number : string -> number).

(** The body of the effect that depends on [fromToken], [toToken] and
    [tokens]; [exchangeRate] is the state before it runs ([None] is
    [null]) and the result is the state after it. *)
Definition updateExchangeRate (tokens : list Token)
    (fromToken toToken : string) (exchangeRate : option number)
  : option number :=
  if nonempty fromToken && nonempty toToken then
    let fromPrice := priceOf tokens fromToken in
    let toPrice := priceOf tokens toToken in
    if ToBoolean fromPrice && ToBoolean toPrice then
      Some (Number (toFixed (ToNumber fromPrice / ToNumber toPrice)%float 6))
    else
      None
  else exchangeRate.
End Host.

End Swap.

(** ** Sample inputs *)

Module Samples.
Import JS Wallet.

Definition balance (c b : string) (a : number) : WalletBalance :=
  {| Wallet.currency := c; blockchain := b; amount := a |}.

(** The example of the specification. *)
Definition BTC := balance "BTC" "Ethereum" 2%float.
Definition XYZ := balance "XYZ" "Unknown" 5%float.
Definition ETH := balance "ETH" "Osmosis" 0%float.
Definition ATOM := balance "ATOM" "Osmosis" 3%float.
Definition records : list WalletBalance := [BTC; XYZ; ETH; ATOM].

Definition btc_price : gmap string number := {["BTC" := 50000%float]}.

(** Two chains of one priority. *)
Definition ZIL := balance "ZIL" "Zilliqa" 1%float.
Definition NEO := balance "NEO" "Neo" 1%float.

(** A host that renders the amounts of the example. *)
Definition toLocaleString (n : number) : string :=
  if (n =? 2)%float then "2" else if (n =? 3)%float then "3" else "?".

Definition token (c : string) (p : number) : Swap.Token :=
  {| Swap.currency := c; Swap.date := "2023-08-29T07:10:52.000Z";
     Swap.price := p |}.

Definition tokens : list Swap.Token :=
  [token "BTC" 50000%float; token "ETH" 2500%float; token "FREE" 0%float].

(** A host that knows the one quotient of the example. *)
Definition toFixed (n : number) (digits : nat) : string :=
  if (n =? 20)%float then "20.000000" else "?".

Definition Number (s : string) : number :=
  if String.eqb s "20.000000" then 20%float else nan.

End Samples.

(** ** [currency-swap/src/App.tsx]: the form as a state machine

    The state is the eight [useState] cells of [CurrencySwapForm].  An
    event is what the browser delivers: the outcome of the fetch started
    on mount, a change of one of the three inputs, a click on the swap
    button, the expiry of a timer set by [handleSwap].  A timer's callback
    is a closure over the [amount] and the [exchangeRate] of the render in
    which the button was clicked, so a pending timer holds those two
    values.  (The [console.log] of the fetched tokens is left out.) *)

Module SwapApp.
Import JS Swap.

Record State := {
  tokens : list Token;
  fromToken : string;
  toToken : string;
  amount : string;
  exchangeRate : option number;
  loading : bool;
  error : string;
  result : option number;
}.

(** The initial values given to [useState]. *)
Definition initial : State :=
  {| tokens := []; fromToken := ""; toToken := ""; amount := "";
     exchangeRate := None; loading := false; error := ""; result := None |}.

Definition setTokens (v : list Token) (s : State) : State :=
  {| tokens := v; fromToken := fromToken s; toToken := toToken s;
     amount := amount s; exchangeRate := exchangeRate s;
     loading := loading s; error := error s; result := result s |}.

Definition setFromToken (v : string) (s : State) : State :=
  {| tokens := tokens s; fromToken := v; toToken := toToken s;
     amount := amount s; exchangeRate := exchangeRate s;
     loading := loading s; error := error s; result := result s |}.

Definition setToToken (v : string) (s : State) : State :=
  {| tokens := tokens s; fromToken := fromToken s; toToken := v;
     amount := amount s; exchangeRate := exchangeRate s;
     loading := loading s; error := error s; result := result s |}.

Definition setAmount (v : string) (s : State) : State :=
  {| tokens := tokens s; fromToken := fromToken s; toToken := toToken s;
     amount := v; exchangeRate := exchangeRate s;
     loading := loading s; error := error s; result := result s |}.

Definition setExchangeRate (v : option number) (s : State) : State :=
  {| tokens := tokens s; fromToken := fromToken s; toToken := toToken s;
     amount := amount s; exchangeRate := v;
     loading := loading s; error := error s; result := result s |}.

Definition setLoading (v : bool) (s : State) : State :=
  {| tokens := tokens s; fromToken := fromToken s; toToken := toToken s;
     amount := amount s; exchangeRate := exchangeRate s;
     loading := v; error := error s; result := result s |}.

Definition setError (v : string) (s : State) : State :=
  {| tokens := tokens s; fromToken := fromToken s; toToken := toToken s;
     amount := amount s; exchangeRate := exchangeRate s;
     loading := loading s; error := v; result := result s |}.

Definition setResult (v : option number) (s : State) : State :=
  {| tokens := tokens s; fromToken := fromToken s; toToken := toToken s;
     amount := amount s; exchangeRate := exchangeRate s;
     loading := loading s; error := error s; result := v |}.

(** *** [fetchPrices] *)

(** [Object.entries(data)]: each id with its record, or [null]. *)
Abbreviation entries := (list (string * option Token)).

(** What [await fetch(...)] followed by [await response.json()] comes to:
    the entries of the parsed object, or an exception, of which only its
    rendering in a template string is used. *)
Inductive response :=
| Resolved (data : entries)
| Rejected (err : string).

(** The callback of [.filter]: [([, value]) => value !== null]. *)
Definition notNull (e : string * option Token) : bool :=
  match e.2 with
  | Some _ => true
  | None => false
  end.

(** The callback of [.map].  [value!.currency] on [null] throws: [None].
    (The [id] the object also gets is read nowhere in the component.) *)
Definition listed (e : string * option Token) : option Token :=
  match e.2 with
  | Some value =>
      Some {| currency := currency value; date := date value;
              price := price value |}
  | None => None
  end.

(** [validTokens], or [None] when the [.map] throws. *)
Definition validTokens (data : entries) : option (list Token) :=
  mapM listed (List.filter notNull data).

(** [exchangeRate || 0]. *)
Definition orZero (rate : option number) : number :=
  match rate with
  | Some r => if truthy r then r else 0%float
  | None => 0%float
  end.

(** What a timer set by [handleSwap] keeps of the render that set it. *)
Record Captured := {
  capturedAmount : string;
  capturedRate : option number;
}.

(** The component with the timers it has set and that have not fired. *)
Record App := {
  state : State;
  timers : list Captured;
}.

Definition start : App := {| state := initial; timers := [] |}.

Inductive event :=
| FetchDone (r : response)
| ChangeFrom (v : string)
| ChangeTo (v : string)
| ChangeAmount (v : string)
| ClickSwap
| TimerFires.

Section Host.
(** [Number.prototype.toFixed], [Number] applied to a string, and the
    rendering of the [TypeError] that reading a property of [null]
    throws. *)
Context (toFixed : number -> nat -> string) (Number : string -> number)
  (nullError : string).

(** The [try] block of [fetchPrices] and its [catch]. *)
Definition fetchPrices (r : response) (s : State) : State :=
  match r with
  | Resolved data =>
      match validTokens data with
      | Some v => setTokens v s
      | None => setError ("Failed to fetch token prices: " +:+ nullError) s
      end
  | Rejected err => setError ("Failed to fetch token prices: " +:+ err) s
  end.

(** The effect with the dependencies [fromToken], [toToken], [tokens]. *)
Definition rateEffect (s : State) : State :=
  setExchangeRate
    (updateExchangeRate toFixed Number (tokens s) (fromToken s) (toToken s)
       (exchangeRate s))
    s.

(** The condition of the [if] of [handleSwap]. *)
Definition invalidInputs (s : State) : bool :=
  negb (nonempty (fromToken s)) ||
  negb (nonempty (toToken s)) ||
  negb (nonempty (amount s)) ||
  is_nan (Number (amount s)) ||
  (Number (amount s) <=? 0)%float.

Definition handleSwap (a : App) : App :=
  let s := state a in
  if invalidInputs s then
    {| state := setError "Please provide valid inputs." s;
       timers := timers a |}
  else
    {| state := setLoading true s;
       timers := timers a ++ [{| capturedAmount := amount s;
                                 capturedRate := exchangeRate s |}] |}.

(** The callback given to [setTimeout]. *)
Definition onTimeout (c : Captured) (s : State) : State :=
  let s := setLoading false s in
  let k := (Number (capturedAmount c) * orZero (capturedRate c))%float in
  let s := setResult (Some k) s in
  setAmount "" s.

(** One event.  The effect runs after an event that sets one of its
    dependencies.  The button is [disabled={loading}], so a click while
    loading reaches no handler; the timers all wait 1500 ms, so they fire
    in the order they were set. *)
Definition handle (e : event) (a : App) : App :=
  match e with
  | FetchDone r =>
      match r with
      | Resolved _ =>
          {| state := rateEffect (fetchPrices r (state a));
             timers := timers a |}
      | Rejected _ =>
          {| state := fetchPrices r (state a); timers := timers a |}
      end
  | ChangeFrom v =>
      {| state := rateEffect (setFromToken v (state a));
         timers := timers a |}
  | ChangeTo v =>
      {| state := rateEffect (setToToken v (state a)); timers := timers a |}
  | ChangeAmount v =>
      {| state := setAmount v (state a); timers := timers a |}
  | ClickSwap => if loading (state a) then a else handleSwap a
  | TimerFires =>
      match timers a with
      | [] => a
      | c :: rest => {| state := onTimeout c (state a); timers := rest |}
      end
  end.

Definition run (events : list event) (a : App) : App :=
  fold_left (fun a e => handle e a) events a.

(** Whenever both tokens are selected, the rate is the one the effect
    computes from the current token list and selection. *)
Definition rateCurrent (s : State) : Prop :=
  nonempty (fromToken s) && nonempty (toToken s) = true ->
  exchangeRate s
  = updateExchangeRate toFixed Number (tokens s) (fromToken s) (toToken s)
      None.

(** At most one timer is pending, and exactly while [loading]. *)
Definition timersMatchLoading (a : App) : Prop :=
  (length (timers a) <= 1)%nat /\
  loading (state a) = negb (bool_decide (timers a = [])).
End Host.

Definition isTimerFires (e : event) : bool :=
  match e with
  | TimerFires => true
  | _ => false
  end.

End SwapApp.

(** ** Sample inputs for the form *)

Module AppSamples.
Import JS Swap SwapApp.

(** A host that reads the amounts of the example. *)
Definition Number (s : string) : number :=
  if String.eqb s "2" then 2%float
  else if String.eqb s "5" then 5%float
  else Samples.Number s.

(** Two listings of one currency, the later one dated later. *)
Definition data : entries :=
  [("0", Some (Samples.token "BTC" 50000%float));
   ("1", None);
   ("2", Some (Samples.token "ETH" 2500%float));
   ("3", Some {| currency := "BTC"; date := "2024-01-01T00:00:00.000Z";
                 price := 60000%float |})].

(** Prices are loaded, BTC and ETH are chosen, the amount 2 is typed. *)
Definition filled : list event :=
  [FetchDone (Resolved data); ChangeFrom "BTC"; ChangeTo "ETH";
   ChangeAmount "2"].

End AppSamples.

(** * Properties *)

(** ** Numbers *)

Module NumberFacts.
Import JS.

(** [NaN] absorbs a product (binary64 multiplication, as specified by
    [mul_spec]). *)
Lemma nan_times (a : number) : (nan * a)%float = nan.
Proof.
  rewrite <- (SF2Prim_Prim2SF (nan * a)), mul_spec.
  change (Prim2SF nan) with S754_nan. reflexivity.
Qed.

Lemma undefined_times (a : number) : (ToNumber None * a)%float = nan.
Proof. apply nan_times. Qed.

(** The falsy numbers. *)
Lemma truthy_falsy_numbers :
  truthy 0%float = false /\ truthy (-0)%float = false /\ truthy nan = false /\
  truthy infinity = true /\ truthy 1%float = true.
Proof. repeat split. Qed.

(** A number that is not [NaN] is truthy exactly when it is not a zero. *)
Lemma truthy_nonzero (n : number) : is_nan n = false -> truthy n = nonzero n.
Proof.
  unfold is_nan, truthy, nonzero. intros H.
  apply negb_false_iff in H. rewrite H. apply andb_true_r.
Qed.

End NumberFacts.

(** ** The priority resolver *)

Module ResolverFacts.
Import JS Wallet Counted.

Lemma getPriority_cases (b : string) :
  (b = "Osmosis" /\ getPriority b = 100) \/
  (b = "Ethereum" /\ getPriority b = 50) \/
  (b = "Arbitrum" /\ getPriority b = 30) \/
  (b = "Zilliqa" /\ getPriority b = 20) \/
  (b = "Neo" /\ getPriority b = 20) \/
  ((b ∉ known_chains) /\ getPriority b = sentinel).
Proof.
  unfold getPriority, known_chains, sentinel.
  repeat match goal with
  | |- context [String.eqb b ?s] =>
      destruct (String.eqb_spec b s) as [-> | ?]; [tauto |]
  end.
  do 5 right. split; [| reflexivity].
  rewrite !elem_of_cons, elem_of_nil. tauto.
Qed.

Lemma getPriority_unknown (b : string) :
  b ∉ known_chains -> getPriority b = sentinel.
Proof.
  intros Hb.
  destruct (getPriority_cases b) as [[-> _] | [[-> _] | [[-> _] | [[-> _] | [[-> _] | [_ H]]]]]];
    try (exfalso; apply Hb; compute_done).
  exact H.
Qed.

Lemma getPriority_known (b : string) :
  b ∈ known_chains -> sentinel < getPriority b.
Proof.
  unfold known_chains. rewrite !elem_of_cons, elem_of_nil.
  intros [-> | [-> | [-> | [-> | [-> | []]]]]]; reflexivity.
Qed.

Lemma getPriority_range (b : string) : sentinel <= getPriority b <= 100.
Proof.
  destruct (getPriority_cases b) as [[_ ->] | [[_ ->] | [[_ ->] | [[_ ->] | [[_ ->] | [_ ->]]]]]];
    unfold sentinel; lia.
Qed.

Lemma getPriorityM_run (b : string) (n : nat) :
  getPriorityM b n = (getPriority b, S n).
Proof. reflexivity. Qed.

(** C8: the resolver is a total function that maps each of the five known
    chains to its score and every other string to the one sentinel, which
    is strictly below every score; its result does not depend on how many
    calls were made before, so two calls on the same input agree. *)
Theorem getPriority_resolver :
  getPriority "Osmosis" = 100 /\
  getPriority "Ethereum" = 50 /\
  getPriority "Arbitrum" = 30 /\
  getPriority "Zilliqa" = 20 /\
  getPriority "Neo" = 20 /\
  (forall b, b ∉ known_chains -> getPriority b = sentinel) /\
  (forall b, b ∈ known_chains -> sentinel < getPriority b) /\
  (forall b n m, fst (getPriorityM b n) = fst (getPriorityM b m)) /\
  (forall b n, exists p, getPriorityM b n = (p, S n) /\ p = getPriority b).
Proof.
  repeat split; try reflexivity.
  - apply getPriority_unknown.
  - apply getPriority_known.
  - intros b n. exists (getPriority b). split; reflexivity.
Qed.

Lemma getPriority_resolver_witness :
  ("Solana" ∉ known_chains) /\ getPriority "Solana" = sentinel /\
  ("Neo" ∈ known_chains) /\ sentinel < getPriority "Neo".
Proof.
  assert (Hout : "Solana" ∉ known_chains) by compute_done.
  assert (Hin : "Neo" ∈ known_chains) by compute_done.
  destruct getPriority_resolver as (_ & _ & _ & _ & _ & Hunknown & Hknown & _).
  exact (conj Hout (conj (Hunknown "Solana" Hout) (conj Hin (Hknown "Neo" Hin)))).
Defined.

End ResolverFacts.

(** ** The sort *)

Module SortFacts.
Import JS.

Section KeyedSort.
(** A comparator that subtracts keys, as [rightPriority - leftPriority]. *)
Context {A : Type} (k : A -> Z) (comparefn : A -> A -> Z).
Hypothesis comparefn_sub : forall x y, comparefn x y = k y - k x.

Local Abbreviation descending := (descending k).
Local Abbreviation has_key := (has_key k).

Lemma sort_insert_swap (x y : A) : (0 <? comparefn x y) = (k x <? k y).
Proof.
  rewrite comparefn_sub.
  destruct (Z.ltb_spec 0 (k y - k x)), (Z.ltb_spec (k x) (k y)); lia.
Qed.

Lemma sort_insert_perm (x : A) (l : list A) :
  sort_insert comparefn x l ≡ₚ x :: l.
Proof.
  induction l as [| y ys IH]; simpl; [reflexivity |].
  destruct (0 <? comparefn x y); [| reflexivity].
  rewrite IH. apply Permutation_swap.
Qed.

Lemma sort_perm (l : list A) : sort comparefn l ≡ₚ l.
Proof.
  induction l as [| x xs IH]; simpl; [reflexivity |].
  rewrite sort_insert_perm. by constructor.
Qed.

Lemma sort_insert_sorted (x : A) (l : list A) :
  StronglySorted descending l ->
  StronglySorted descending (sort_insert comparefn x l).
Proof.
  induction 1 as [| y ys Hs IH Hy]; simpl.
  - repeat constructor.
  - rewrite sort_insert_swap.
    destruct (Z.ltb_spec (k x) (k y)) as [Hlt | Hge].
    + constructor; [exact IH |].
      rewrite sort_insert_perm. constructor; [unfold descending; lia | exact Hy].
    + constructor; [by constructor |].
      constructor; [exact Hge |].
      eapply Forall_impl; [exact Hy |].
      unfold descending. intros z Hz. simpl in Hz. lia.
Qed.

Lemma sort_sorted (l : list A) : StronglySorted descending (sort comparefn l).
Proof.
  induction l as [| x xs IH]; simpl; [constructor |].
  by apply sort_insert_sorted.
Qed.

(** Inserting never moves an element across one of the same key. *)
Lemma sort_insert_stable (p : Z) (x : A) (l : list A) :
  List.filter (has_key p) (sort_insert comparefn x l)
  = List.filter (has_key p) (x :: l).
Proof.
  induction l as [| y ys IH]; [reflexivity |].
  cbn [sort_insert]. rewrite sort_insert_swap.
  destruct (Z.ltb_spec (k x) (k y)) as [Hlt | Hge]; [| reflexivity].
  cbn [List.filter] in *. rewrite IH. unfold has_key.
  destruct (Z.eqb_spec (k x) p), (Z.eqb_spec (k y) p); try reflexivity; lia.
Qed.

Lemma sort_stable (p : Z) (l : list A) :
  List.filter (has_key p) (sort comparefn l) = List.filter (has_key p) l.
Proof.
  induction l as [| x xs IH]; [reflexivity |].
  cbn [sort foldr]. fold (sort comparefn xs).
  rewrite sort_insert_stable. cbn [List.filter]. by rewrite IH.
Qed.

Lemma sort_length (l : list A) : length (sort comparefn l) = length l.
Proof. apply Permutation_length, sort_perm. Qed.

(** Positions in a sorted list are ordered by key. *)
Lemma sorted_lookup (l : list A) (i j : nat) (a b : A) :
  StronglySorted descending l ->
  (i < j)%nat -> l !! i = Some a -> l !! j = Some b -> k b <= k a.
Proof.
  intros Hs. revert i j.
  induction Hs as [| y ys Hs IH Hy]; intros i j Hij Hi Hj; [done |].
  destruct j as [| j]; [lia |].
  destruct i as [| i]; simpl in *.
  - injection Hi as <-.
    rewrite Forall_forall in Hy. apply Hy.
    apply list_elem_of_lookup. eauto.
  - apply (IH i j); [lia | done | done].
Qed.

Lemma has_key_refl (a : A) : has_key (k a) a = true.
Proof. apply Z.eqb_refl. Qed.

Lemma filter_has_key_elem_of (p : Z) (a : A) (l : list A) :
  a ∈ List.filter (has_key p) l -> a ∈ l /\ k a = p.
Proof.
  rewrite list_elem_of_In, filter_In, <- list_elem_of_In.
  unfold JS.has_key. by rewrite Z.eqb_eq.
Qed.

(** The head of a descending list has the highest key. *)
Lemma sorted_head_max (a b : A) (l : list A) (p : Z) :
  StronglySorted descending (b :: l) ->
  a ∈ List.filter (has_key p) (b :: l) -> k a <= k b.
Proof.
  intros Hs Ha. apply filter_has_key_elem_of in Ha as [Ha _].
  apply StronglySorted_inv in Hs as [_ Hb].
  apply elem_of_cons in Ha as [-> | Ha]; [lia |].
  rewrite Forall_forall in Hb. by apply Hb.
Qed.

(** Order by key and the order within each key determine a list: two
    descending lists with the same elements of every key, in the same
    order, are equal.  So every stable sort returns what [sort] returns. *)
Lemma stable_descending_unique (l1 l2 : list A) :
  StronglySorted descending l1 -> StronglySorted descending l2 ->
  (forall p, List.filter (has_key p) l1 = List.filter (has_key p) l2) ->
  l1 = l2.
Proof.
  revert l2. induction l1 as [| a l1 IH]; intros [| b l2] Hs1 Hs2 Hf;
    [reflexivity | | |].
  - specialize (Hf (k b)). cbn in Hf. by rewrite has_key_refl in Hf.
  - specialize (Hf (k a)). cbn in Hf. by rewrite has_key_refl in Hf.
  - assert (Hab : k a <= k b).
    { apply (sorted_head_max a b l2 (k a) Hs2). rewrite <- Hf.
      cbn. rewrite has_key_refl. apply list_elem_of_here. }
    assert (Hba : k b <= k a).
    { apply (sorted_head_max b a l1 (k b) Hs1). rewrite Hf.
      cbn. rewrite has_key_refl. apply list_elem_of_here. }
    assert (Hk : k a = k b) by lia.
    pose proof (Hf (k a)) as Hhead. cbn in Hhead.
    rewrite has_key_refl in Hhead. rewrite Hk, has_key_refl in Hhead.
    injection Hhead as -> _.
    f_equal. apply StronglySorted_inv in Hs1 as [Hs1 _].
    apply StronglySorted_inv in Hs2 as [Hs2 _].
    apply IH; [done | done |]. intros p. specialize (Hf p). cbn in Hf.
    destruct (has_key p b); [by injection Hf | done].
Qed.

End KeyedSort.
End SortFacts.

(** ** The filter and the sort of the wallet page *)

Module SortedBalancesFacts.
Import JS Wallet SortFacts.

Lemma isValid_true (b : WalletBalance) :
  isValid b = true <->
  sentinel < getPriority (blockchain b) /\ gt (amount b) 0%float = true.
Proof.
  unfold isValid, sentinel. cbv zeta.
  rewrite andb_true_iff, Z.gtb_lt. reflexivity.
Qed.

Lemma comparePriority_sub (lhs rhs : WalletBalance) :
  comparePriority lhs rhs = priority rhs - priority lhs.
Proof. reflexivity. Qed.

Lemma sortedBalances_perm (balances : list WalletBalance) :
  sortedBalances balances ≡ₚ List.filter isValid balances.
Proof. apply sort_perm. Qed.

Lemma sortedBalances_elem_of (balances : list WalletBalance) (b : WalletBalance) :
  b ∈ sortedBalances balances <-> b ∈ balances /\ isValid b = true.
Proof.
  rewrite sortedBalances_perm, !list_elem_of_In. apply filter_In.
Qed.

Lemma sortedBalances_nil : sortedBalances [] = [].
Proof. reflexivity. Qed.

Lemma filter_none {A} (f : A -> bool) (l : list A) :
  Forall (fun a => f a = false) l -> List.filter f l = [].
Proof.
  induction 1 as [| a l Ha _ IH]; [reflexivity |].
  simpl. by rewrite Ha.
Qed.

Lemma sortedBalances_all_invalid (balances : list WalletBalance) :
  Forall (fun b => isValid b = false) balances -> sortedBalances balances = [].
Proof.
  intros H. unfold sortedBalances. cbv zeta. by rewrite filter_none.
Qed.

Lemma sortedBalances_sorted (balances : list WalletBalance) :
  StronglySorted (descending priority) (sortedBalances balances).
Proof. apply (sort_sorted priority), comparePriority_sub. Qed.

Lemma sortedBalances_stable (balances : list WalletBalance) (p : Z) :
  List.filter (has_key priority p) (sortedBalances balances)
  = List.filter (has_key priority p) (List.filter isValid balances).
Proof. apply (sort_stable priority), comparePriority_sub. Qed.

(** C4 (as amended): the output of the filter+sort stage is ordered by
    descending priority, not strictly: at any two positions the earlier
    record has the priority of the later one or a higher one, and records
    of equal priority may follow each other; it is a rearrangement of the
    valid records; the records of any one priority stand in their input
    order (the sort is stable); these two orders fix the output, which is
    the only descending arrangement that keeps the input order within each
    priority; and the rows are built from it position by position. *)
Theorem sortedBalances_descending_stable (balances : list WalletBalance) :
  StronglySorted (descending priority) (sortedBalances balances) /\
  (forall i j a b, (i < j)%nat ->
     sortedBalances balances !! i = Some a ->
     sortedBalances balances !! j = Some b ->
     priority b <= priority a) /\
  sortedBalances balances ≡ₚ List.filter isValid balances /\
  (forall p,
     List.filter (has_key priority p) (sortedBalances balances)
     = List.filter (has_key priority p) (List.filter isValid balances)) /\
  (forall out,
     StronglySorted (descending priority) out ->
     (forall p,
        List.filter (has_key priority p) out
        = List.filter (has_key priority p) (List.filter isValid balances)) ->
     out = sortedBalances balances) /\
  (forall toLocaleString classes_row prices,
     rows toLocaleString classes_row balances prices
     = map (fun b => row classes_row prices (format toLocaleString b))
           (sortedBalances balances)).
Proof.
  pose proof (sortedBalances_sorted balances) as Hs.
  split; [exact Hs |].
  split.
  { intros i j a b Hij Ha Hb.
    exact (sorted_lookup priority _ i j a b Hs Hij Ha Hb). }
  split; [apply sortedBalances_perm |].
  split; [apply sortedBalances_stable |].
  split.
  - intros out Hout Hstable.
    apply (stable_descending_unique priority); [done | done |].
    intros p. by rewrite Hstable, sortedBalances_stable.
  - intros tl cr prices. unfold rows, formattedBalances. apply map_map.
Qed.

Lemma sortedBalances_descending_stable_witness :
  sortedBalances Samples.records !! 0%nat = Some Samples.ATOM /\
  sortedBalances Samples.records !! 1%nat = Some Samples.BTC /\
  priority Samples.BTC <= priority Samples.ATOM.
Proof.
  assert (H0 : sortedBalances Samples.records !! 0%nat = Some Samples.ATOM)
    by (vm_compute; reflexivity).
  assert (H1 : sortedBalances Samples.records !! 1%nat = Some Samples.BTC)
    by (vm_compute; reflexivity).
  split; [exact H0 |]. split; [exact H1 |].
  apply (proj1 (proj2 (sortedBalances_descending_stable Samples.records))
           0%nat 1%nat Samples.ATOM Samples.BTC); [lia | exact H0 | exact H1].
Defined.

(** The claim C4 fails as stated: two valid records on chains of one
    priority (Zilliqa and Neo, both 20) come out next to each other, in
    their input order, so the output is not strictly descending. *)
Lemma equal_priorities_example :
  sortedBalances [Samples.ZIL; Samples.NEO] = [Samples.ZIL; Samples.NEO] /\
  priority Samples.ZIL = 20 /\
  priority Samples.NEO = 20 /\
  (priority Samples.NEO <? priority Samples.ZIL) = false.
Proof. repeat split. Qed.

End SortedBalancesFacts.

(** ** The rows *)

Module RowsFacts.
Import JS Wallet SortFacts SortedBalancesFacts.

Section Host.
Context (toLocaleString : number -> string) (classes_row : string).

Local Abbreviation format := (format toLocaleString).
Local Abbreviation row := (row classes_row).
Local Abbreviation rows := (rows toLocaleString classes_row).

Lemma rows_unfold (balances : list WalletBalance) (prices : gmap string number) :
  rows balances prices
  = map (fun b => row prices (format b)) (sortedBalances balances).
Proof. unfold Wallet.rows, formattedBalances. apply map_map. Qed.

Lemma rows_length (balances : list WalletBalance) (prices : gmap string number) :
  length (rows balances prices) = length (sortedBalances balances).
Proof. rewrite rows_unfold. apply length_map. Qed.

Lemma rows_lookup (balances : list WalletBalance) (prices : gmap string number)
    (i : nat) :
  rows balances prices !! i
  = (fun b => row prices (format b)) <$> sortedBalances balances !! i.
Proof. rewrite rows_unfold. apply list_lookup_fmap. Qed.

Lemma row_key (prices : gmap string number) (b : WalletBalance) :
  key (row prices (format b)) = currency b +:+ blockchain b.
Proof. reflexivity. Qed.

Lemma row_amount (prices : gmap string number) (b : WalletBalance) :
  props (row prices (format b)) !! "amount" = Some (VNumber (amount b)).
Proof. reflexivity. Qed.

Lemma row_formattedAmount (prices : gmap string number) (b : WalletBalance) :
  props (row prices (format b)) !! "formattedAmount"
  = Some (VString (toLocaleString (amount b))).
Proof. reflexivity. Qed.

Lemma row_usdValue (prices : gmap string number) (b : WalletBalance) :
  props (row prices (format b)) !! "usdValue"
  = Some (VNumber (ToNumber (index prices (currency b)) * amount b)%float).
Proof. reflexivity. Qed.

Lemma row_without_usdValue (p1 p2 : gmap string number)
    (fb : FormattedWalletBalance) :
  without_usdValue (row p1 fb) = without_usdValue (row p2 fb).
Proof.
  (* The keys are literals: both maps compute to the same three entries. *)
  unfold without_usdValue, Wallet.row. cbn [type key props].
  apply f_equal. reflexivity.
Qed.

(** C3: every row is built from an input record whose chain resolves
    strictly above the sentinel and whose amount is strictly positive; an
    empty input and an input of invalid records only give no row. *)
Theorem rows_from_valid_records (balances : list WalletBalance)
    (prices : gmap string number) :
  (forall r, r ∈ rows balances prices ->
     exists b, b ∈ balances /\
       sentinel < getPriority (blockchain b) /\
       gt (amount b) 0%float = true /\
       r = row prices (format b) /\
       key r = currency b +:+ blockchain b) /\
  rows [] prices = [] /\
  (Forall (fun b => isValid b = false) balances -> rows balances prices = []).
Proof.
  split; [| split].
  - intros r. rewrite rows_unfold, list_elem_of_fmap.
    intros (b & -> & Hb). apply sortedBalances_elem_of in Hb as [Hin Hvalid].
    apply isValid_true in Hvalid as [Hp Ha]. by exists b.
  - reflexivity.
  - intros H. rewrite rows_unfold. by rewrite sortedBalances_all_invalid.
Qed.

(** C2: two runs on the same records with two price mappings give the same
    number of rows, in the same order (the same keys), with the same
    formatted amounts; the rows agree on everything but [usdValue]. *)
Theorem rows_independent_of_prices (balances : list WalletBalance)
    (p1 p2 : gmap string number) :
  length (rows balances p1) = length (rows balances p2) /\
  map key (rows balances p1) = map key (rows balances p2) /\
  map (fun r => props r !! "formattedAmount") (rows balances p1)
  = map (fun r => props r !! "formattedAmount") (rows balances p2) /\
  map without_usdValue (rows balances p1)
  = map without_usdValue (rows balances p2).
Proof.
  rewrite !rows_length, !rows_unfold, !map_map.
  split; [reflexivity |].
  split; [apply map_ext; reflexivity |].
  split; [apply map_ext; reflexivity |].
  apply map_ext. intros b. apply row_without_usdValue.
Qed.

(** C1 (as amended): a record of the sorted sequence whose currency has
    no entry in [prices] gets a row whose [usdValue] is [NaN], the product
    of [undefined] and the amount; the batch keeps one row per record, and
    a record whose currency has a price [p] gets [p * amount]. *)
Theorem missing_price_gives_NaN (balances : list WalletBalance)
    (prices : gmap string number) (i : nat) (b : WalletBalance) :
  sortedBalances balances !! i = Some b ->
  prices !! currency b = None ->
  (exists r, rows balances prices !! i = Some r /\
     props r !! "usdValue" = Some (VNumber nan) /\
     key r = currency b +:+ blockchain b /\
     props r !! "amount" = Some (VNumber (amount b)) /\
     props r !! "formattedAmount"
     = Some (VString (toLocaleString (amount b)))) /\
  length (rows balances prices) = length (sortedBalances balances) /\
  (forall j b' p, sortedBalances balances !! j = Some b' ->
     prices !! currency b' = Some p ->
     exists r', rows balances prices !! j = Some r' /\
       props r' !! "usdValue" = Some (VNumber (p * amount b')%float)).
Proof.
  intros Hb Hmissing. split; [| split].
  - exists (row prices (format b)). rewrite rows_lookup, Hb.
    split; [reflexivity |]. rewrite row_usdValue.
    unfold index. rewrite Hmissing, NumberFacts.undefined_times.
    repeat split.
  - apply rows_length.
  - intros j b' p Hb' Hp. exists (row prices (format b')).
    rewrite rows_lookup, Hb'. split; [reflexivity |].
    rewrite row_usdValue. unfold index. by rewrite Hp.
Qed.

(** C9 (as amended): a record that survives the filter has a position in
    the output; the formatted record there has its currency, blockchain
    and amount unchanged next to [formatted]; the row there carries the
    amount unchanged as a prop, carries currency and blockchain only as
    the concatenated [key], and has the props [className], [amount],
    [usdValue] and [formattedAmount] and no other. *)
Theorem surviving_record_row (balances : list WalletBalance)
    (prices : gmap string number) (b : WalletBalance) :
  b ∈ balances -> isValid b = true ->
  exists i fb r,
    sortedBalances balances !! i = Some b /\
    formattedBalances toLocaleString (sortedBalances balances) !! i = Some fb /\
    fcurrency fb = currency b /\
    fblockchain fb = blockchain b /\
    famount fb = amount b /\
    formatted fb = toLocaleString (amount b) /\
    rows balances prices !! i = Some r /\
    key r = currency b +:+ blockchain b /\
    props r !! "amount" = Some (VNumber (amount b)) /\
    dom (props r)
    = ({["className"; "amount"; "usdValue"; "formattedAmount"]} : gset string).
Proof.
  intros Hin Hvalid.
  assert (Hs : b ∈ sortedBalances balances)
    by (apply sortedBalances_elem_of; done).
  apply list_elem_of_lookup in Hs as [i Hi].
  exists i, (format b), (row prices (format b)).
  split; [exact Hi |].
  split; [unfold formattedBalances; by rewrite list_lookup_fmap, Hi |].
  do 4 (split; [reflexivity |]).
  split; [by rewrite rows_lookup, Hi |].
  do 2 (split; [reflexivity |]).
  unfold Wallet.row. cbn [props].
  rewrite !dom_insert_L, dom_empty_L. set_solver.
Qed.

End Host.

Lemma rows_from_valid_records_witness :
  (exists b, b ∈ Samples.records /\
     sentinel < getPriority (blockchain b) /\
     gt (amount b) 0%float = true /\
     row "row" Samples.btc_price (format Samples.toLocaleString Samples.BTC)
     = row "row" Samples.btc_price (format Samples.toLocaleString b) /\
     key (row "row" Samples.btc_price
            (format Samples.toLocaleString Samples.BTC))
     = currency b +:+ blockchain b) /\
  rows Samples.toLocaleString "row" [Samples.XYZ; Samples.ETH]
    Samples.btc_price = [].
Proof.
  split.
  - apply (proj1 (rows_from_valid_records Samples.toLocaleString "row"
                    Samples.records Samples.btc_price)).
    rewrite rows_unfold.
    change (sortedBalances Samples.records) with [Samples.ATOM; Samples.BTC].
    apply list_elem_of_further, list_elem_of_here.
  - apply (proj2 (proj2 (rows_from_valid_records Samples.toLocaleString "row"
                           [Samples.XYZ; Samples.ETH] Samples.btc_price))).
    repeat constructor.
Defined.

(** C7: on the example of the specification the filter+sort stage returns
    ATOM (Osmosis, 100) and then BTC (Ethereum, 50), and nothing else: XYZ
    is on a chain that resolves to the sentinel and ETH has amount 0, so
    neither is valid; the rows come in that order. *)
Theorem example_records_order :
  sortedBalances Samples.records = [Samples.ATOM; Samples.BTC] /\
  priority Samples.ATOM = 100 /\
  priority Samples.BTC = 50 /\
  priority Samples.XYZ = sentinel /\
  isValid Samples.XYZ = false /\
  gt (amount Samples.ETH) 0%float = false /\
  isValid Samples.ETH = false /\
  (forall toLocaleString classes_row prices,
     map key (rows toLocaleString classes_row Samples.records prices)
     = ["ATOMOsmosis"; "BTCEthereum"]).
Proof.
  assert (Hs : sortedBalances Samples.records = [Samples.ATOM; Samples.BTC])
    by (vm_compute; reflexivity).
  split; [exact Hs |].
  do 6 (split; [vm_compute; reflexivity |]).
  intros tl cr prices. rewrite rows_unfold, Hs. reflexivity.
Qed.

(** The claim C1 fails: with no price for BTC the one row of the batch has
    the number [NaN] as its [usdValue], not a marker of an unknown value. *)
Lemma missing_price_example :
  exists r,
    rows Samples.toLocaleString "row" [Samples.BTC] ∅ = [r] /\
    index (∅ : gmap string number) (currency Samples.BTC) = None /\
    props r !! "usdValue" = Some (VNumber nan) /\
    explicit_unknown (props r !! "usdValue") = false.
Proof.
  eexists. split; [rewrite rows_unfold; reflexivity |].
  repeat split.
Qed.

Lemma missing_price_gives_NaN_witness :
  (exists r,
     rows Samples.toLocaleString "row" Samples.records Samples.btc_price
       !! 0%nat = Some r /\
     props r !! "usdValue" = Some (VNumber nan) /\
     key r = "ATOMOsmosis" /\
     props r !! "amount" = Some (VNumber 3%float) /\
     props r !! "formattedAmount" = Some (VString "3")) /\
  (exists r',
     rows Samples.toLocaleString "row" Samples.records Samples.btc_price
       !! 1%nat = Some r' /\
     props r' !! "usdValue" = Some (VNumber 100000%float)).
Proof.
  pose proof (missing_price_gives_NaN Samples.toLocaleString "row"
                Samples.records Samples.btc_price 0%nat Samples.ATOM
                ltac:(vm_compute; reflexivity) ltac:(vm_compute; reflexivity))
    as (Hmissing & _ & Hpriced).
  split; [exact Hmissing |].
  apply (Hpriced 1%nat Samples.BTC 50000%float); vm_compute; reflexivity.
Defined.

(** The claim C9 fails: the row of a surviving record has no [currency]
    and no [blockchain] prop. *)
Lemma row_drops_currency_example :
  exists r,
    rows Samples.toLocaleString "row" [Samples.BTC] Samples.btc_price = [r] /\
    isValid Samples.BTC = true /\
    props r !! "currency" = None /\
    props r !! "blockchain" = None.
Proof.
  eexists. split; [rewrite rows_unfold; reflexivity |].
  repeat split.
Qed.

Lemma surviving_record_row_witness :
  exists i fb r,
    sortedBalances Samples.records !! i = Some Samples.ATOM /\
    formattedBalances Samples.toLocaleString (sortedBalances Samples.records) !! i
    = Some fb /\
    fcurrency fb = "ATOM" /\
    fblockchain fb = "Osmosis" /\
    famount fb = 3%float /\
    formatted fb = "3" /\
    rows Samples.toLocaleString "row" Samples.records Samples.btc_price !! i
    = Some r /\
    key r = "ATOMOsmosis" /\
    props r !! "amount" = Some (VNumber 3%float) /\
    dom (props r)
    = ({["className"; "amount"; "usdValue"; "formattedAmount"]} : gset string).
Proof.
  apply (surviving_record_row Samples.toLocaleString "row" Samples.records
           Samples.btc_price Samples.ATOM).
  - unfold Samples.records. do 3 apply list_elem_of_further.
    apply list_elem_of_here.
  - vm_compute. reflexivity.
Defined.

End RowsFacts.

(** ** How often the sorted sequence is traversed *)

Module PassesFacts.
Import JS Wallet Passes.

(** One [map] builds one array and runs its callback once per element. *)
Lemma eachP_run {A B : Type} (f : A -> B) (l : list A) (t : tally) :
  eachP f l t
  = (map f l,
     {| arrays := arrays t; callbacks := callbacks t + length l |}).
Proof.
  revert t. induction l as [| x xs IH]; intros [a c].
  - cbn. unfold ret. do 2 f_equal. lia.
  - cbn [eachP]. unfold bind at 1, callback. unfold bind at 1.
    rewrite IH. cbn. unfold ret. do 2 f_equal. lia.
Qed.

Lemma mapP_run {A B : Type} (f : A -> B) (l : list A) (t : tally) :
  mapP f l t
  = (map f l,
     {| arrays := S (arrays t); callbacks := callbacks t + length l |}).
Proof. unfold mapP, bind, newArray. by rewrite eachP_run. Qed.

(** C6 (the code departs from it): the format+project stage returns one
    row per record of the sorted sequence, but not in a single traversal:
    it maps twice, building the array of formatted balances first and the
    rows from it, so two arrays are built and two callbacks run for every
    record (four callbacks for the two valid records of the example). *)
Theorem rows_built_in_two_passes (toLocaleString : number -> string)
    (classes_row : string) (balances : list WalletBalance)
    (prices : gmap string number) :
  rowsP toLocaleString classes_row balances prices none
  = (rows toLocaleString classes_row balances prices,
     {| arrays := 2;
        callbacks := 2 * length (sortedBalances balances) |}) /\
  formattedBalancesP toLocaleString (sortedBalances balances) none
  = (formattedBalances toLocaleString (sortedBalances balances),
     {| arrays := 1; callbacks := length (sortedBalances balances) |}) /\
  length (rows toLocaleString classes_row balances prices)
  = length (sortedBalances balances) /\
  snd (rowsP Samples.toLocaleString "row" Samples.records Samples.btc_price
         none)
  = {| arrays := 2; callbacks := 4 |}.
Proof.
  split; [| split; [| split]].
  - unfold rowsP, formattedBalancesP, bind. rewrite !mapP_run.
    unfold rows, formattedBalances. cbn. rewrite length_map.
    do 2 f_equal. lia.
  - unfold formattedBalancesP. rewrite mapP_run. reflexivity.
  - apply RowsFacts.rows_length.
  - vm_compute. reflexivity.
Qed.

End PassesFacts.

(** ** How often the resolver runs *)

Module CountedFacts.
Import JS Wallet Counted SortFacts.

Lemma isValidM_run (b : WalletBalance) (n : nat) :
  isValidM b n = (isValid b, S n).
Proof. reflexivity. Qed.

Lemma comparePriorityM_run (lhs rhs : WalletBalance) (n : nat) :
  comparePriorityM lhs rhs n = (comparePriority lhs rhs, S (S n)).
Proof. reflexivity. Qed.

(** The filter asks the resolver once per record. *)
Lemma filterM_isValidM_run (l : list WalletBalance) (n : nat) :
  filterM isValidM l n = (List.filter isValid l, (n + length l)%nat).
Proof.
  revert n. induction l as [| x xs IH]; intros n.
  - cbn. by rewrite Nat.add_0_r.
  - cbn [filterM]. unfold bind at 1. rewrite isValidM_run.
    unfold bind at 1. rewrite IH. cbn.
    destruct (isValid x); unfold ret; f_equal; lia.
Qed.

(** An insertion asks the resolver twice per comparison, and compares at
    least once when there is something to compare with. *)
Lemma sort_insertM_run (x : WalletBalance) (l : list WalletBalance) (n : nat) :
  exists c,
    sort_insertM comparePriorityM x l n
    = (sort_insert comparePriority x l, (n + 2 * c)%nat) /\
    (Nat.min 1 (length l) <= c <= length l)%nat.
Proof.
  revert n. induction l as [| y ys IH]; intros n.
  - exists 0%nat. cbn. unfold ret. split; [f_equal; lia | lia].
  - cbn [sort_insertM sort_insert]. unfold bind at 1.
    rewrite comparePriorityM_run.
    destruct (0 <? comparePriority x y).
    + destruct (IH (S (S n))) as (c & Hrun & Hc).
      exists (S c). unfold bind. rewrite Hrun. unfold ret. cbn [length].
      split; [f_equal; lia | lia].
    + exists 1%nat. unfold ret. cbn [length]. split; [f_equal; lia | lia].
Qed.

Lemma sortM_run (l : list WalletBalance) (n : nat) :
  exists c,
    sortM comparePriorityM l n = (sort comparePriority l, (n + 2 * c)%nat) /\
    (length l - 1 <= c)%nat.
Proof.
  revert n. induction l as [| x xs IH]; intros n.
  - exists 0%nat. cbn. unfold ret. split; [f_equal; lia | lia].
  - cbn [sortM]. destruct (IH n) as (c1 & Hrun1 & Hc1).
    unfold bind. rewrite Hrun1.
    destruct (sort_insertM_run x (sort comparePriority xs) (n + 2 * c1))
      as (c2 & Hrun2 & Hc2).
    rewrite Hrun2. rewrite sort_length in Hc2.
    exists (c1 + c2)%nat. cbn [length sort foldr].
    split; [f_equal; lia | lia].
Qed.

(** The instrumented stage computes what the stage computes, and asks the
    resolver once per record for the filter and twice per comparison of
    the embedded insertion sort, which compares at least once per
    surviving record but one. *)
Lemma sortedBalancesM_run (balances : list WalletBalance) :
  fst (sortedBalancesM balances 0%nat) = sortedBalances balances /\
  (length balances + 2 * (length (sortedBalances balances) - 1)
   <= resolver_calls balances)%nat.
Proof.
  unfold resolver_calls, sortedBalancesM, bind.
  rewrite filterM_isValidM_run.
  destruct (sortM_run (List.filter isValid balances) (0 + length balances))
    as (c & Hrun & Hc).
  rewrite Hrun. cbn [fst snd]. split; [reflexivity |].
  unfold sortedBalances. cbv zeta. rewrite sort_length. lia.
Qed.

(** C5 (the code departs from it): with two valid records the resolver is
    asked four times in one run of the filter+sort stage, twice by the
    filter and twice by the comparator of the sort, not once per record;
    the stage keeps no decorated priorities. *)
Theorem resolver_called_in_comparator :
  fst (sortedBalancesM [Samples.BTC; Samples.ATOM] 0%nat)
  = [Samples.ATOM; Samples.BTC] /\
  resolver_calls [Samples.BTC; Samples.ATOM] = 4%nat /\
  length [Samples.BTC; Samples.ATOM] = 2%nat /\
  snd (filterM isValidM [Samples.BTC; Samples.ATOM] 0%nat) = 2%nat /\
  snd (comparePriorityM Samples.BTC Samples.ATOM 0%nat) = 2%nat.
Proof. repeat split; vm_compute; reflexivity. Qed.

End CountedFacts.

(** ** The exchange rate of the swap form *)

Module SwapFacts.
Import JS Swap NumberFacts.

Section Host.
Context (toFixed : number -> nat -> string) (Number : string -> number).

Local Abbreviation updateExchangeRate := (updateExchangeRate toFixed Number).

Lemma selected (s : string) : s <> "" -> nonempty s = true.
Proof.
  intros Hs. apply negb_true_iff. by apply String.eqb_neq.
Qed.

Lemma findToken_elem_of (tokens : list Token) (c : string) (t : Token) :
  findToken tokens c = Some t -> t ∈ tokens /\ currency t = c.
Proof.
  intros H. apply find_some in H as [Hin Heq].
  split; [by apply list_elem_of_In | by apply String.eqb_eq].
Qed.

(** What the effect does on any token list: it goes by the truthiness of
    the two looked-up prices. *)
Lemma updateExchangeRate_selected (tokens : list Token)
    (fromToken toToken : string) (exchangeRate : option number) :
  fromToken <> "" -> toToken <> "" ->
  updateExchangeRate tokens fromToken toToken exchangeRate
  = match findToken tokens fromToken, findToken tokens toToken with
    | Some f, Some t =>
        if truthy (price f) && truthy (price t)
        then Some (Number (toFixed (price f / price t)%float 6))
        else None
    | _, _ => None
    end.
Proof.
  intros Hfrom Hto. unfold Swap.updateExchangeRate, priceOf.
  rewrite !selected by done. cbn [andb].
  destruct (findToken tokens fromToken) as [f |];
    destruct (findToken tokens toToken) as [t |]; cbn; try reflexivity.
  by destruct (truthy (price f)).
Qed.

(** Until both tokens are selected the effect leaves the rate alone. *)
Lemma updateExchangeRate_unselected (tokens : list Token)
    (fromToken toToken : string) (exchangeRate : option number) :
  fromToken = "" \/ toToken = "" ->
  updateExchangeRate tokens fromToken toToken exchangeRate = exchangeRate.
Proof.
  unfold Swap.updateExchangeRate.
  intros [-> | ->]; [reflexivity |]. by rewrite andb_false_r.
Qed.

(** The truthiness of a looked-up price when no listed price is [NaN]. *)
Lemma ToBoolean_priceOf (tokens : list Token) (c : string) :
  Forall (fun t => is_nan (price t) = false) tokens ->
  ToBoolean (priceOf tokens c)
  = match findToken tokens c with
    | Some t => nonzero (price t)
    | None => false
    end.
Proof.
  intros Hnan. unfold priceOf.
  destruct (findToken tokens c) as [t |] eqn:Hfind; [| reflexivity].
  apply findToken_elem_of in Hfind as [Hin _].
  rewrite Forall_forall in Hnan. cbn. apply truthy_nonzero. by apply Hnan.
Qed.

(** The value the body of the effect computes, by the prices found, when
    no listed price is [NaN]. *)
Lemma updateExchangeRate_nonzero (tokens : list Token)
    (fromToken toToken : string)
    (exchangeRate : option number) :
  fromToken <> "" -> toToken <> "" ->
  Forall (fun t => is_nan (price t) = false) tokens ->
  updateExchangeRate tokens fromToken toToken exchangeRate
  = match findToken tokens fromToken, findToken tokens toToken with
    | Some f, Some t =>
        if nonzero (price f) && nonzero (price t)
        then Some (Number (toFixed (price f / price t)%float 6))
        else None
    | _, _ => None
    end /\
  (forall f, findToken tokens fromToken = Some f -> nonzero (price f) = false ->
     updateExchangeRate tokens fromToken toToken exchangeRate = None) /\
  (forall t, findToken tokens toToken = Some t -> nonzero (price t) = false ->
     updateExchangeRate tokens fromToken toToken exchangeRate = None) /\
  (findToken tokens fromToken = None \/ findToken tokens toToken = None ->
     updateExchangeRate tokens fromToken toToken exchangeRate = None).
Proof.
  intros Hfrom Hto Hnan.
  assert (Heq : updateExchangeRate tokens fromToken toToken exchangeRate
    = match findToken tokens fromToken, findToken tokens toToken with
      | Some f, Some t =>
          if nonzero (price f) && nonzero (price t)
          then Some (Number (toFixed (price f / price t)%float 6))
          else None
      | _, _ => None
      end).
  { rewrite updateExchangeRate_selected by done.
    pose proof (ToBoolean_priceOf tokens fromToken Hnan) as Hf.
    pose proof (ToBoolean_priceOf tokens toToken Hnan) as Ht.
    unfold priceOf in Hf, Ht.
    destruct (findToken tokens fromToken) as [f |];
      destruct (findToken tokens toToken) as [t |]; try reflexivity.
    cbn in Hf, Ht. by rewrite Hf, Ht. }
  split; [exact Heq |]. rewrite Heq. split; [| split].
  - intros f -> Hz. rewrite Hz. by destruct (findToken tokens toToken).
  - intros t -> Hz. rewrite Hz.
    destruct (findToken tokens fromToken); [| done]. by rewrite andb_false_r.
  - intros [-> | ->]; [done |]. by destruct (findToken tokens fromToken).
Qed.

End Host.

End SwapFacts.

(** ** The exchange rate in the state of the form *)

Module FormRateFacts.
Import JS Swap SwapApp NumberFacts SwapFacts.

Section Host.
Context (toFixed : number -> nat -> string) (Number : string -> number).

Local Abbreviation rateEffect := (rateEffect toFixed Number).


End Host.


End FormRateFacts.

(** ** The swap form as a state machine *)

Module FetchFacts.
Import JS Swap SwapApp.

Lemma listed_value (id : string) (t : Token) : listed (id, Some t) = Some t.
Proof. by destruct t. Qed.

(** The [.map] after the [.filter] never meets a [null]. *)
Lemma validTokens_omap (data : entries) :
  validTokens data = Some (omap snd data).
Proof.
  unfold validTokens. induction data as [| [id [t |]] data IH]; cbn.
  - reflexivity.
  - destruct t. cbn in *. by rewrite IH.
  - exact IH.
Qed.

Lemma find_first {A} (p : A -> bool) (l1 l2 : list A) (x : A) :
  Forall (fun y => p y = false) l1 -> p x = true ->
  List.find p (l1 ++ x :: l2) = Some x.
Proof.
  intros Hl1 Hx. induction Hl1 as [| y l1 Hy _ IH]; cbn.
  - by rewrite Hx.
  - by rewrite Hy.
Qed.

Lemma find_none_all {A} (p : A -> bool) (l : list A) :
  Forall (fun y => p y = false) l -> List.find p l = None.
Proof.
  induction 1 as [| y l Hy _ IH]; cbn; [reflexivity |]. by rewrite Hy.
Qed.

Lemma omap_snd_currency (c : string) (data : entries) :
  Forall (fun e => forall u, e.2 = Some u -> currency u <> c) data ->
  Forall (fun t => String.eqb (currency t) c = false) (omap snd data).
Proof.
  induction 1 as [| [id [t |]] data He _ IH]; cbn; [constructor | | exact IH].
  constructor; [| exact IH]. apply String.eqb_neq. by apply He.
Qed.

Lemma omap_snd_length (data : entries) :
  length (omap snd data) = length (List.filter notNull data).
Proof.
  induction data as [| [id [t |]] data IH]; cbn; [done | by rewrite IH | done].
Qed.

(** X1: a fetch that resolves never fails on a [null] entry: it sets
    [tokens] to the records of the entries that are not [null], in the
    order of the entries, and leaves the error message as it was.  Looking
    a currency up in these tokens finds the first record listed for it,
    whatever is listed for that currency further down (the dates are not
    compared), and finds nothing when no record is listed for it. *)
Theorem fetched_tokens_first_listed (nullError : string) (data : entries)
    (s : State) :
  validTokens data = Some (omap snd data) /\
  tokens (fetchPrices nullError (Resolved data) s) = omap snd data /\
  error (fetchPrices nullError (Resolved data) s) = error s /\
  length (tokens (fetchPrices nullError (Resolved data) s))
  = length (List.filter notNull data) /\
  (forall pre id t post,
     data = pre ++ (id, Some t) :: post ->
     Forall (fun e => forall u, e.2 = Some u -> currency u <> currency t) pre ->
     findToken (tokens (fetchPrices nullError (Resolved data) s)) (currency t)
     = Some t /\
     priceOf (tokens (fetchPrices nullError (Resolved data) s)) (currency t)
     = Some (price t)) /\
  (forall c,
     Forall (fun e => forall u, e.2 = Some u -> currency u <> c) data ->
     findToken (tokens (fetchPrices nullError (Resolved data) s)) c = None /\
     priceOf (tokens (fetchPrices nullError (Resolved data) s)) c = None).
Proof.
  assert (Hfetch : fetchPrices nullError (Resolved data) s
                   = setTokens (omap snd data) s).
  { unfold fetchPrices. by rewrite validTokens_omap. }
  rewrite Hfetch. cbn [tokens error setTokens].
  split; [apply validTokens_omap |].
  split; [reflexivity |]. split; [reflexivity |].
  split; [| split].
  - apply omap_snd_length.
  - intros pre id t post Hdata Hpre.
    assert (Hfind : findToken (omap snd data) (currency t) = Some t).
    { rewrite Hdata, omap_app. cbn. apply find_first.
      - by apply omap_snd_currency.
      - apply String.eqb_refl. }
    split; [exact Hfind |]. unfold priceOf. by rewrite Hfind.
  - intros c Hc.
    assert (Hfind : findToken (omap snd data) c = None)
      by (apply find_none_all; by apply omap_snd_currency).
    split; [exact Hfind |]. unfold priceOf. by rewrite Hfind.
Qed.

Lemma fetched_tokens_first_listed_witness :
  tokens (fetchPrices "TypeError" (Resolved AppSamples.data) initial)
  = [Samples.token "BTC" 50000%float; Samples.token "ETH" 2500%float;
     {| currency := "BTC"; date := "2024-01-01T00:00:00.000Z";
        price := 60000%float |}] /\
  findToken (tokens (fetchPrices "TypeError" (Resolved AppSamples.data) initial))
    "BTC"
  = Some (Samples.token "BTC" 50000%float) /\
  priceOf (tokens (fetchPrices "TypeError" (Resolved AppSamples.data) initial))
    "BTC"
  = Some 50000%float /\
  findToken (tokens (fetchPrices "TypeError" (Resolved AppSamples.data) initial))
    "DOGE"
  = None.
Proof.
  destruct (fetched_tokens_first_listed "TypeError" AppSamples.data initial)
    as (_ & Hts & _ & _ & Hfirst & Hnone).
  split; [exact Hts |].
  destruct (Hfirst [] "0" (Samples.token "BTC" 50000%float)
              (tail AppSamples.data) eq_refl (Forall_nil_2 _))
    as [Hfind Hprice].
  split; [exact Hfind |]. split; [exact Hprice |].
  apply (Hnone "DOGE").
  repeat constructor; cbn; intros u Hu; simplify_eq; discriminate.
Defined.

End FetchFacts.

Module AppFacts.
Import JS Swap SwapApp NumberFacts.

(** Binary64 facts the result of a swap rests on. *)
Lemma positive_finite_times_zero (a : number) :
  is_nan a = false -> (a <=? 0)%float = false -> (a <? infinity)%float = true ->
  (a * 0)%float = 0%float.
Proof.
  unfold is_nan. rewrite FloatAxioms.eqb_spec, leb_spec, ltb_spec.
  intros Hnan Hle Hlt.
  rewrite <- (SF2Prim_Prim2SF (a * 0)), mul_spec.
  change (Prim2SF 0) with (S754_zero false) in *.
  change (Prim2SF infinity) with (S754_infinity false) in *.
  destruct (Prim2SF a) as [s | s | | s m e]; try destruct s; cbn in *;
    try discriminate.
  reflexivity.
Qed.

Section Host.
Context (toFixed : number -> nat -> string) (Number : string -> number)
  (nullError : string).

Local Abbreviation updateExchangeRate := (updateExchangeRate toFixed Number).
Local Abbreviation rateEffect := (rateEffect toFixed Number).
Local Abbreviation fetchPrices := (fetchPrices nullError).
Local Abbreviation invalidInputs := (invalidInputs Number).
Local Abbreviation handleSwap := (handleSwap Number).
Local Abbreviation onTimeout := (onTimeout Number).
Local Abbreviation handle := (handle toFixed Number nullError).
Local Abbreviation run := (run toFixed Number nullError).
Local Abbreviation rateCurrent := (rateCurrent toFixed Number).

(** With both tokens selected the effect does not read the old rate. *)
Lemma updateExchangeRate_forgets (tokens : list Token)
    (fromToken toToken : string) (r1 r2 : option number) :
  nonempty fromToken && nonempty toToken = true ->
  updateExchangeRate tokens fromToken toToken r1
  = updateExchangeRate tokens fromToken toToken r2.
Proof. unfold Swap.updateExchangeRate. by intros ->. Qed.

(** X2: running the effect a second time changes nothing, whatever the
    state: a render that re-runs it with the same dependencies is
    harmless. *)
Theorem rateEffect_idempotent (s : State) :
  rateEffect (rateEffect s) = rateEffect s.
Proof.
  unfold SwapApp.rateEffect, setExchangeRate. cbn. f_equal.
  unfold Swap.updateExchangeRate.
  by destruct (nonempty (fromToken s) && nonempty (toToken s)).
Qed.

Lemma rateCurrent_rateEffect (s : State) : rateCurrent (rateEffect s).
Proof.
  intros Hsel. cbn in *. by apply updateExchangeRate_forgets.
Qed.

Lemma rateCurrent_handle (e : event) (a : App) :
  rateCurrent (state a) -> rateCurrent (state (handle e a)).
Proof.
  intros Ha.
  destruct e as [[data | err] | v | v | v | |]; cbn;
    try apply rateCurrent_rateEffect.
  - exact Ha.
  - exact Ha.
  - destruct (loading (state a)); [exact Ha |].
    unfold SwapApp.handleSwap. cbv zeta.
    destruct (invalidInputs (state a)); exact Ha.
  - destruct (timers a); exact Ha.
Qed.

Lemma run_snoc (events : list event) (e : event) (a : App) :
  run (events ++ [e]) a = handle e (run events a).
Proof. unfold SwapApp.run. by rewrite fold_left_app. Qed.

Lemma rateCurrent_fixes (s : State) : rateCurrent s -> rateEffect s = s.
Proof.
  intros Hs. unfold SwapApp.rateEffect.
  destruct (nonempty (fromToken s) && nonempty (toToken s)) eqn:Hsel.
  - rewrite (updateExchangeRate_forgets _ _ _ _ None Hsel), <- (Hs Hsel).
    by destruct s.
  - unfold Swap.updateExchangeRate. rewrite Hsel. by destruct s.
Qed.

(** X3: in every state the form reaches from its start, whenever both
    tokens are selected the rate is the one the effect computes from the
    current token list and the current selection (it is never left over
    from an earlier selection), and running the effect again would change
    nothing. *)
Theorem rate_follows_selection (events : list event) :
  rateCurrent (state (run events start)) /\
  rateEffect (state (run events start)) = state (run events start).
Proof.
  assert (H : rateCurrent (state (run events start))).
  { induction events as [| e events IH] using rev_ind.
    - intros Hsel. discriminate.
    - rewrite run_snoc. by apply rateCurrent_handle. }
  split; [exact H | by apply rateCurrent_fixes].
Qed.

(** No event handler empties the error message. *)
Lemma error_kept_handle (e : event) (a : App) :
  nonempty (error (state a)) = true ->
  nonempty (error (state (handle e a))) = true.
Proof.
  intros Ha.
  destruct e as [[data | err] | v | v | v | |]; cbn; try exact Ha.
  - destruct (validTokens data); [exact Ha | reflexivity].
  - reflexivity.
  - destruct (loading (state a)); [exact Ha |].
    unfold SwapApp.handleSwap. cbv zeta.
    destruct (invalidInputs (state a)); [reflexivity | exact Ha].
  - destruct (timers a); exact Ha.
Qed.

(** X4: once an error message is shown it is never taken down: after any
    sequence of events (a later swap that is accepted and completes
    included) the message is still not empty. *)
Theorem error_never_cleared (events : list event) (a : App) :
  nonempty (error (state a)) = true ->
  nonempty (error (state (run events a))) = true.
Proof.
  intros Ha. induction events as [| e events IH] using rev_ind; [exact Ha |].
  rewrite run_snoc. by apply error_kept_handle.
Qed.

Lemma timersMatchLoading_handle (e : event) (a : App) :
  timersMatchLoading a -> timersMatchLoading (handle e a).
Proof.
  unfold timersMatchLoading. intros [Hlen Hload].
  destruct e as [[data | err] | v | v | v | |]; cbn; try done.
  - by destruct (validTokens data).
  - destruct (loading (state a)) eqn:Hl; [by rewrite Hl |].
    unfold SwapApp.handleSwap. cbv zeta.
    destruct (invalidInputs (state a)); cbn; [by rewrite Hl |].
    destruct (timers a) as [| c rest]; [done |].
    rewrite bool_decide_eq_false_2 in Hload by done. done.
  - destruct (timers a) as [| c [| c' rest]] eqn:Ht; cbn in *.
    + rewrite Ht. split; [cbn; lia | exact Hload].
    + split; [lia | reflexivity].
    + lia.
Qed.

(** X5: in every state the form reaches from its start at most one timer
    is pending, and one is pending exactly while [loading] is set: swaps
    never overlap. *)
Theorem one_swap_at_a_time (events : list event) :
  timersMatchLoading (run events start).
Proof.
  induction events as [| e events IH] using rev_ind.
  - split; [cbn; lia | reflexivity].
  - rewrite run_snoc. by apply timersMatchLoading_handle.
Qed.

(** While a swap is pending, nothing but the timer touches it. *)
Lemma pending_kept (c : Captured) (events : list event) (a : App) :
  loading (state a) = true -> timers a = [c] ->
  forallb (fun e => negb (isTimerFires e)) events = true ->
  loading (state (run events a)) = true /\ timers (run events a) = [c].
Proof.
  intros Hl Ht. induction events as [| e events IH] using rev_ind; [done |].
  rewrite forallb_app, andb_true_iff. cbn. rewrite andb_true_r.
  intros [Hevents He]. destruct (IH Hevents) as [Hl' Ht'].
  rewrite run_snoc.
  destruct e as [[data | err] | v | v | v | |]; cbn; try done.
  - by destruct (validTokens data).
  - by rewrite Hl'.
Qed.

Lemma handle_ClickSwap_valid (a : App) :
  loading (state a) = false -> timers a = [] ->
  invalidInputs (state a) = false ->
  handle ClickSwap a
  = {| state := setLoading true (state a);
       timers := [{| capturedAmount := amount (state a);
                     capturedRate := exchangeRate (state a) |}] |}.
Proof.
  intros Hl Ht Hvalid. cbn. rewrite Hl. unfold SwapApp.handleSwap. cbv zeta.
  by rewrite Hvalid, Ht.
Qed.

Lemma handle_TimerFires (c : Captured) (rest : list Captured) (a : App) :
  timers a = c :: rest ->
  handle TimerFires a = {| state := onTimeout c (state a); timers := rest |}.
Proof. cbn. by intros ->. Qed.

(** X6: the result of a swap is computed from the amount and the rate of
    the moment of the click: whatever is typed, selected or fetched while
    the swap is pending, when the timer fires the result is
    [Number(amount) * (exchangeRate || 0)] for the clicked values, the
    amount field is emptied (what was typed meanwhile is lost) and
    [loading] is reset. *)
Theorem result_of_clicked_inputs (a : App) (events : list event) :
  loading (state a) = false -> timers a = [] ->
  invalidInputs (state a) = false ->
  forallb (fun e => negb (isTimerFires e)) events = true ->
  let a' := handle TimerFires (run events (handle ClickSwap a)) in
  result (state a')
  = Some (Number (amount (state a)) * orZero (exchangeRate (state a)))%float /\
  amount (state a') = "" /\
  loading (state a') = false /\
  timers a' = [].
Proof.
  intros Hl Ht Hvalid Hevents a'. subst a'.
  rewrite (handle_ClickSwap_valid a Hl Ht Hvalid).
  set (c := {| capturedAmount := amount (state a);
               capturedRate := exchangeRate (state a) |}).
  pose proof (pending_kept c events
                {| state := setLoading true (state a); timers := [c] |}
                eq_refl eq_refl Hevents) as [_ Ht2].
  rewrite (handle_TimerFires c [] _ Ht2). cbn. done.
Qed.

(** X7: a swap is accepted without a rate: when the inputs pass the check
    of [handleSwap] but the rate is [null] (or falsy) and the amount is
    finite, the swap completes with the result 0. *)
Theorem swap_without_rate_gives_zero (a : App) :
  loading (state a) = false -> timers a = [] ->
  invalidInputs (state a) = false ->
  orZero (exchangeRate (state a)) = 0%float ->
  (Number (amount (state a)) <? infinity)%float = true ->
  result (state (handle TimerFires (handle ClickSwap a))) = Some 0%float.
Proof.
  intros Hl Ht Hvalid Hrate Hfinite.
  rewrite (handle_ClickSwap_valid a Hl Ht Hvalid).
  set (c := {| capturedAmount := amount (state a);
               capturedRate := exchangeRate (state a) |}).
  rewrite (handle_TimerFires c []
             {| state := setLoading true (state a); timers := [c] |} eq_refl).
  cbn. rewrite Hrate. f_equal.
  unfold SwapApp.invalidInputs in Hvalid.
  rewrite !orb_false_iff in Hvalid. destruct Hvalid as [[_ Hnan] Hle].
  by apply positive_finite_times_zero.
Qed.

(** X12: once a swap has completed, a click that follows at once is
    turned down: the amount field was emptied by the timer, so the check
    of [handleSwap] fails, the message asking for valid inputs is set, no
    timer is started and the result of the completed swap stays. *)
Theorem click_after_swap_rejected (a : App) (c : Captured)
    (rest : list Captured) :
  timers a = c :: rest ->
  let a' := handle ClickSwap (handle TimerFires a) in
  error (state a') = "Please provide valid inputs." /\
  timers a' = rest /\
  loading (state a') = false /\
  result (state a')
  = Some (Number (capturedAmount c) * orZero (capturedRate c))%float.
Proof.
  intros Ht a'. subst a'. rewrite (handle_TimerFires c rest a Ht).
  cbn. unfold SwapApp.handleSwap, SwapApp.invalidInputs. cbn.
  rewrite !orb_true_r. cbn. done.
Qed.

End Host.

Lemma click_after_swap_rejected_witness :
  let a := handle Samples.toFixed AppSamples.Number "TypeError" ClickSwap
             (run Samples.toFixed AppSamples.Number "TypeError"
                AppSamples.filled start) in
  let a' := handle Samples.toFixed AppSamples.Number "TypeError" ClickSwap
              (handle Samples.toFixed AppSamples.Number "TypeError"
                 TimerFires a) in
  error (state a') = "Please provide valid inputs." /\
  timers a' = [] /\
  loading (state a') = false /\
  result (state a') = Some 40%float.
Proof.
  apply (click_after_swap_rejected Samples.toFixed AppSamples.Number
           "TypeError"
           (handle Samples.toFixed AppSamples.Number "TypeError" ClickSwap
              (run Samples.toFixed AppSamples.Number "TypeError"
                 AppSamples.filled start))
           {| capturedAmount := "2"; capturedRate := Some 20%float |} []).
  vm_compute. reflexivity.
Defined.

Lemma rate_follows_selection_witness :
  exchangeRate
    (state (run Samples.toFixed AppSamples.Number "TypeError"
              AppSamples.filled start))
  = Some 20%float.
Proof.
  rewrite (proj1 (rate_follows_selection Samples.toFixed AppSamples.Number
                    "TypeError" AppSamples.filled) eq_refl).
  vm_compute. reflexivity.
Defined.

Lemma error_never_cleared_witness :
  nonempty
    (error
       (state
          (run Samples.toFixed AppSamples.Number "TypeError"
             (AppSamples.filled ++ [ClickSwap; TimerFires])
             (handle Samples.toFixed AppSamples.Number "TypeError"
                (FetchDone (Rejected "TypeError: Failed to fetch")) start))))
  = true.
Proof.
  apply (error_never_cleared Samples.toFixed AppSamples.Number "TypeError").
  vm_compute. reflexivity.
Defined.

Lemma result_of_clicked_inputs_witness :
  let a := run Samples.toFixed AppSamples.Number "TypeError"
             AppSamples.filled start in
  let a' := handle Samples.toFixed AppSamples.Number "TypeError" TimerFires
              (run Samples.toFixed AppSamples.Number "TypeError"
                 [ChangeAmount "5"; ChangeTo "DOGE"; ClickSwap]
                 (handle Samples.toFixed AppSamples.Number "TypeError"
                    ClickSwap a)) in
  result (state a') = Some 40%float /\
  amount (state a') = "" /\
  loading (state a') = false /\
  timers a' = [].
Proof.
  apply (result_of_clicked_inputs Samples.toFixed AppSamples.Number
           "TypeError"
           (run Samples.toFixed AppSamples.Number "TypeError"
              AppSamples.filled start)
           [ChangeAmount "5"; ChangeTo "DOGE"; ClickSwap]);
    vm_compute; reflexivity.
Defined.

Lemma swap_without_rate_gives_zero_witness :
  result
    (state
       (handle Samples.toFixed AppSamples.Number "TypeError" TimerFires
          (handle Samples.toFixed AppSamples.Number "TypeError" ClickSwap
             (run Samples.toFixed AppSamples.Number "TypeError"
                (AppSamples.filled ++ [ChangeTo "DOGE"]) start))))
  = Some 0%float.
Proof.
  apply (swap_without_rate_gives_zero Samples.toFixed AppSamples.Number
           "TypeError"
           (run Samples.toFixed AppSamples.Number "TypeError"
              (AppSamples.filled ++ [ChangeTo "DOGE"]) start));
    vm_compute; reflexivity.
Defined.

End AppFacts.

(** ** More on the wallet page *)

Module PipelineFacts.
Import JS Wallet SortFacts SortedBalancesFacts ResolverFacts.

Lemma list_ascii_app (s1 s2 : string) :
  String.list_ascii_of_string (s1 +:+ s2)
  = String.list_ascii_of_string s1 ++ String.list_ascii_of_string s2.
Proof.
  induction s1 as [| c s1 IH]; [reflexivity |].
  change (String c s1 +:+ s2) with (String c (s1 +:+ s2)).
  cbn. f_equal. exact IH.
Qed.

Lemma list_ascii_inj (s1 s2 : string) :
  String.list_ascii_of_string s1 = String.list_ascii_of_string s2 -> s1 = s2.
Proof.
  intros H. rewrite <- (String.string_of_list_ascii_of_string s1), H.
  apply String.string_of_list_ascii_of_string.
Qed.

(** Splits a hypothesis [l = k ++ m] between lists of characters, [l] and
    [m] given in full, by the length of [k]. *)
Ltac split_prefix H k :=
  let Hlen := fresh "Hlen" in
  pose proof (f_equal length H) as Hlen;
  rewrite length_app in Hlen; cbn in Hlen;
  do 6 (try (destruct k as [| ? k]; cbn in Hlen; try lia));
  cbn in H; try discriminate H.

(** No known chain ends in another one, so a key ends in one chain only. *)
Lemma key_chain_inj (c1 c2 ch1 ch2 : string) :
  ch1 ∈ known_chains -> ch2 ∈ known_chains ->
  c1 +:+ ch1 = c2 +:+ ch2 -> c1 = c2 /\ ch1 = ch2.
Proof.
  intros H1 H2 Heq.
  apply (f_equal String.list_ascii_of_string) in Heq.
  rewrite !list_ascii_app in Heq.
  assert (Hch : ch1 = ch2).
  { unfold known_chains in H1, H2.
    rewrite !elem_of_cons, elem_of_nil in H1, H2.
    apply app_eq_inv in Heq as [(k & _ & Hk) | (k & _ & Hk)];
      destruct H1 as [-> | [-> | [-> | [-> | [-> | []]]]]];
      destruct H2 as [-> | [-> | [-> | [-> | [-> | []]]]]];
      try reflexivity; exfalso; cbn in Hk; split_prefix Hk k. }
  subst ch2. split; [| reflexivity].
  apply app_inv_tail in Heq. by apply list_ascii_inj.
Qed.

Lemma isValid_known (b : WalletBalance) :
  isValid b = true -> blockchain b ∈ known_chains.
Proof.
  intros Hb. apply isValid_true in Hb as [Hp _].
  destruct (getPriority_cases (blockchain b))
    as [[-> _] | [[-> _] | [[-> _] | [[-> _] | [[-> _] | [_ Hs]]]]]];
    try compute_done.
  rewrite Hs in Hp. lia.
Qed.

(** X8: among the records that pass the filter, the [key] of a row says
    which currency and which chain the row is for: two rows have the same
    key exactly when their records have the same currency and the same
    chain (no known chain name ends in another one, so the concatenation
    can be split in one way only). *)
Theorem row_key_identifies_pair (toLocaleString : number -> string)
    (classes_row : string) (prices : gmap string number)
    (b1 b2 : WalletBalance) :
  isValid b1 = true -> isValid b2 = true ->
  key (row classes_row prices (format toLocaleString b1))
  = key (row classes_row prices (format toLocaleString b2))
  <-> currency b1 = currency b2 /\ blockchain b1 = blockchain b2.
Proof.
  intros H1 H2. cbn. split.
  - apply key_chain_inj; by apply isValid_known.
  - by intros [-> ->].
Qed.

Lemma row_key_identifies_pair_witness :
  key (row "row" Samples.btc_price (format Samples.toLocaleString Samples.BTC))
  = key (row "row" Samples.btc_price
           (format Samples.toLocaleString
              (Samples.balance "BTC" "Ethereum" 3%float)))
  <-> currency Samples.BTC = "BTC" /\ blockchain Samples.BTC = "Ethereum".
Proof.
  apply (row_key_identifies_pair Samples.toLocaleString "row"
           Samples.btc_price Samples.BTC
           (Samples.balance "BTC" "Ethereum" 3%float));
    vm_compute; reflexivity.
Defined.

Section KeyedSort.
Context {A : Type} (k : A -> Z) (comparefn : A -> A -> Z).
Hypothesis comparefn_sub : forall x y, comparefn x y = k y - k x.

(** Sorting a list that is in order returns it. *)
Lemma sort_sorted_id (l : list A) :
  StronglySorted (descending k) l -> sort comparefn l = l.
Proof.
  induction 1 as [| x xs Hs IH Hx]; [reflexivity |].
  cbn [sort foldr]. fold (sort comparefn xs). rewrite IH.
  destruct xs as [| y ys]; [reflexivity |]. cbn [sort_insert].
  rewrite (sort_insert_swap k comparefn comparefn_sub).
  apply Forall_cons in Hx as [Hy _]. unfold descending in Hy.
  destruct (Z.ltb_spec (k x) (k y)); [lia | reflexivity].
Qed.
End KeyedSort.

Lemma filter_all {A} (f : A -> bool) (l : list A) :
  Forall (fun a => f a = true) l -> List.filter f l = l.
Proof.
  induction 1 as [| a l Ha _ IH]; [reflexivity |].
  cbn. by rewrite Ha, IH.
Qed.

(** X9: the filter+sort stage is idempotent: given its own output it
    returns it unchanged (every record of the output is valid and the
    output is in order). *)
Theorem sortedBalances_idempotent (balances : list WalletBalance) :
  sortedBalances (sortedBalances balances) = sortedBalances balances.
Proof.
  unfold sortedBalances at 1. cbv zeta. rewrite filter_all.
  - apply (sort_sorted_id priority), sortedBalances_sorted.
    apply comparePriority_sub.
  - apply Forall_forall. intros b Hb.
    by apply sortedBalances_elem_of in Hb as [_ Hb].
Qed.

Lemma compareEachM_run (pairs : list (WalletBalance * WalletBalance))
    (n : nat) :
  Counted.compareEachM Counted.comparePriorityM pairs n
  = (tt, (n + 2 * length pairs)%nat).
Proof.
  revert n. induction pairs as [| [x y] pairs IH]; intros n.
  - cbn. unfold Counted.ret. f_equal. lia.
  - cbn [Counted.compareEachM]. unfold Counted.bind at 1.
    rewrite CountedFacts.comparePriorityM_run, IH. cbn [length]. f_equal. lia.
Qed.


End PipelineFacts.

(** ** Choosing from the listed currencies *)

Module SelectionFacts.
Import JS Swap NumberFacts SwapFacts.

Lemma findToken_listed (tokens : list Token) (c : string) :
  c ∈ map currency tokens ->
  exists t, findToken tokens c = Some t /\ currency t = c /\ t ∈ tokens.
Proof.
  intros Hc. apply list_elem_of_fmap in Hc as (u & -> & Hu).
  destruct (findToken tokens (currency u)) as [t |] eqn:Hfind.
  - exists t. apply findToken_elem_of in Hfind as [Hin Heq]. done.
  - exfalso. apply list_elem_of_In in Hu.
    pose proof (find_none _ _ Hfind u Hu) as Hne. cbn in Hne.
    by rewrite String.eqb_refl in Hne.
Qed.

(** X11: when both currencies are chosen among the listed ones (and no
    listed price is [NaN]), each has a first listing, and the effect
    leaves the rate [null] exactly when the price of one of these two
    listings is zero: a choice from the two menus never fails for want of
    a price. *)
Theorem listed_selection_rate (toFixed : number -> nat -> string)
    (Number : string -> number) (tokens : list Token)
    (fromToken toToken : string) (exchangeRate : option number) :
  fromToken <> "" -> toToken <> "" ->
  fromToken ∈ map currency tokens -> toToken ∈ map currency tokens ->
  Forall (fun t => is_nan (price t) = false) tokens ->
  exists f t,
    findToken tokens fromToken = Some f /\
    findToken tokens toToken = Some t /\
    (updateExchangeRate toFixed Number tokens fromToken toToken exchangeRate
     = None
     <-> nonzero (price f) = false \/ nonzero (price t) = false).
Proof.
  intros Hfrom Hto Hf Ht Hnan.
  destruct (findToken_listed tokens fromToken Hf) as (f & Hff & _ & Hfin).
  destruct (findToken_listed tokens toToken Ht) as (t & Hft & _ & Htin).
  exists f, t. split; [exact Hff |]. split; [exact Hft |].
  rewrite updateExchangeRate_selected, Hff, Hft by done.
  rewrite Forall_forall in Hnan.
  rewrite !truthy_nonzero by (by apply Hnan).
  destruct (nonzero (price f)), (nonzero (price t)); cbn;
    intuition discriminate.
Qed.

Lemma listed_selection_rate_witness :
  exists f t,
    findToken Samples.tokens "FREE" = Some f /\
    findToken Samples.tokens "ETH" = Some t /\
    (updateExchangeRate Samples.toFixed Samples.Number Samples.tokens
       "FREE" "ETH" None = None
     <-> nonzero (price f) = false \/ nonzero (price t) = false).
Proof.
  apply (listed_selection_rate Samples.toFixed Samples.Number Samples.tokens
           "FREE" "ETH" None);
    [discriminate | discriminate | | | repeat constructor].
  - do 2 apply list_elem_of_further. apply list_elem_of_here.
  - apply list_elem_of_further, list_elem_of_here.
Defined.

End SelectionFacts.
